(** * The scrape pipeline of the Web Scraping API

    A shallow embedding of the [POST /scrape] handler of the Express server
    (src/unnamed/part_001, and its earlier variant embedded in
    src/test-api.js): URL validation, the browser life cycle around
    [chromium.launch] / [browser.close], the soft content wait, the
    extraction function handed to [page.evaluate], and the JSON responses. *)

From Stdlib Require Import List String Ascii NArith Arith Bool Lia.
Import ListNotations.
Local Open Scope list_scope.

(** ** JavaScript strings

    A JavaScript string is a sequence of UTF-16 code units. *)

Definition jsstring := list N.

(** A source literal, written in ASCII. *)
Definition str (s : string) : jsstring :=
  map N_of_ascii (list_ascii_of_string s).

Fixpoint jsstring_eqb (a b : jsstring) : bool :=
  match a, b with
  | [], [] => true
  | x :: a', y :: b' => N.eqb x y && jsstring_eqb a' b'
  | _, _ => false
  end.

(** The code units removed by [String.prototype.trim]: ECMAScript
    WhiteSpace and LineTerminator. *)
Definition is_js_space (c : N) : bool :=
  ((9 <=? c) && (c <=? 13) || (c =? 32) || (c =? 160) || (c =? 5760)
   || (8192 <=? c) && (c <=? 8202) || (c =? 8232) || (c =? 8233)
   || (c =? 8239) || (c =? 8287) || (c =? 12288) || (c =? 65279))%N.

Fixpoint trimStart (s : jsstring) : jsstring :=
  match s with
  | c :: s' => if is_js_space c then trimStart s' else s
  | [] => []
  end.

Definition trimEnd (s : jsstring) : jsstring := rev (trimStart (rev s)).

Definition trim (s : jsstring) : jsstring := trimEnd (trimStart s).

(** ** The DOM the extraction function reads *)

#[local] Set Warnings "-register-all".
Inductive node : Type :=
| Text (data : jsstring)
| Comment (data : jsstring)
| Element (localName : jsstring) (id : option jsstring)
          (classList : list jsstring) (childNodes : list node).

(** The page as [page.evaluate] sees it: the children of [document]. *)
Definition Document := list node.

(** A node followed by its descendants, in tree (document) order. *)
Fixpoint subtree (n : node) : list node :=
  match n with
  | Element _ _ _ ch => n :: flat_map subtree ch
  | _ => [n]
  end.

Definition children (n : node) : list node :=
  match n with
  | Element _ _ _ ch => ch
  | _ => []
  end.

(** [Node.textContent] of an element: the data of its Text descendants,
    concatenated in tree order; comments contribute nothing. *)
Fixpoint textContent (n : node) : jsstring :=
  match n with
  | Text d => d
  | Comment _ => []
  | Element _ _ _ ch => flat_map textContent ch
  end.

(** *** Selectors

    The selectors of the source are comma-separated lists of compound
    selectors made of an optional type, id and class. They are kept parsed. *)

Record compound : Type := {
  sel_type : option jsstring;
  sel_id : option jsstring;
  sel_class : option jsstring
}.

Definition selector := list compound.

Definition opt_test {A} (o : option A) (p : A -> bool) : bool :=
  match o with
  | Some a => p a
  | None => true
  end.

Definition matches_compound (c : compound) (n : node) : bool :=
  match n with
  | Element tag i cls _ =>
      opt_test (sel_type c) (jsstring_eqb tag)
      && opt_test (sel_id c)
           (fun want => match i with
                        | Some have => jsstring_eqb have want
                        | None => false
                        end)
      && opt_test (sel_class c) (fun want => existsb (jsstring_eqb want) cls)
  | _ => false
  end.

Definition matches (s : selector) (n : node) : bool :=
  existsb (fun c => matches_compound c n) s.

(** [scope.querySelectorAll(s)] over the nodes below a scope, given as the
    scope's children: every matching descendant, in document order. *)
Definition querySelectorAll (s : selector) (scope : list node) : list node :=
  filter (matches s) (flat_map subtree scope).

(** [scope.querySelector(s)]: the first match in document order, or null. *)
Definition querySelector (s : selector) (scope : list node) : option node :=
  find (matches s) (flat_map subtree scope).

(** ['a.zone-name'] *)
Definition sel_zone : selector :=
  [ {| sel_type := Some (str "a"); sel_id := None;
       sel_class := Some (str "zone-name") |} ].

(** ['#filter-boss-text'] *)
Definition sel_boss : selector :=
  [ {| sel_type := None; sel_id := Some (str "filter-boss-text");
       sel_class := None |} ].

(** ['tr.odd, tr.even'] *)
Definition sel_rows : selector :=
  [ {| sel_type := Some (str "tr"); sel_id := None;
       sel_class := Some (str "odd") |};
    {| sel_type := Some (str "tr"); sel_id := None;
       sel_class := Some (str "even") |} ].

(** ['td'] *)
Definition sel_td : selector :=
  [ {| sel_type := Some (str "td"); sel_id := None; sel_class := None |} ].

(** ** The extraction function passed to [page.evaluate] *)

Record RowData : Type := {
  jobName : jsstring;
  score : jsstring;
  count : jsstring
}.

Record ScrapedData : Type := {
  zoneName : jsstring;
  bossName : jsstring;
  tableRows : list RowData;
  timestamp : jsstring
}.

(** [el ? el.textContent.trim() : ''] *)
Definition text_or_empty (el : option node) : jsstring :=
  match el with
  | Some e => trim (textContent e)
  | None => []
  end.

(** [row.querySelectorAll('td')] *)
Definition cells_of (row : node) : list node :=
  querySelectorAll sel_td (children row).

(** The callback of [Array.from(rows).map(...)]: an object, or [null]. *)
Definition row_object (row : node) : option RowData :=
  let cells := cells_of row in
  if 4 <=? List.length cells then
    Some {| jobName := text_or_empty (nth_error cells 0);
            score := text_or_empty (nth_error cells 1);
            count := text_or_empty (nth_error cells 3) |}
  else None.

(** [.filter(row => row !== null)] *)
Fixpoint filter_not_null {A} (l : list (option A)) : list A :=
  match l with
  | Some a :: l' => a :: filter_not_null l'
  | None :: l' => filter_not_null l'
  | [] => []
  end.

(** [Array.from(rows).map(...).filter(row => row !== null)] *)
Definition map_filter_rows (rows : list node) : list RowData :=
  filter_not_null (map row_object rows).

Definition extract_tableRows (document : Document) : list RowData :=
  let rows := querySelectorAll sel_rows document in
  map_filter_rows rows.

(** The whole function; [now] is [new Date().toISOString()] in the page.
    None of the three guarded blocks can throw on this DOM, so their
    [catch] arms do not appear. *)
Definition extract (document : Document) (now : jsstring) : ScrapedData :=
  {| zoneName := text_or_empty (querySelector sel_zone document);
     bossName := text_or_empty (querySelector sel_boss document);
     tableRows := extract_tableRows document;
     timestamp := now |}.

(** *** The row loop of the variant in src/test-api.js

    [tableRows.forEach(row => { ...; data.tableRows.push(rowData) })], with
    [acc] the array pushed to. Reading [textContent] of a missing cell would
    throw into the enclosing [try], which leaves the array as it then is. *)
Fixpoint forEach_push (rows : list node) (acc : list RowData) : list RowData :=
  match rows with
  | [] => acc
  | row :: rest =>
      let cells := cells_of row in
      if 4 <=? List.length cells then
        match nth_error cells 0, nth_error cells 1, nth_error cells 3 with
        | Some c0, Some c1, Some c3 =>
            forEach_push rest
              (acc ++ [ {| jobName := trim (textContent c0);
                           score := trim (textContent c1);
                           count := trim (textContent c3) |} ])
        | _, _, _ => acc
        end
      else forEach_push rest acc
  end.

Definition extract_tableRows_forEach (document : Document) : list RowData :=
  forEach_push (querySelectorAll sel_rows document) [].

(** ** JSON values sent with [res.json] *)

Inductive json : Type :=
| JNull
| JBool (b : bool)
| JString (s : jsstring)
| JArray (items : list json)
| JObject (fields : list (string * json)).

(** The value of a field of an object, when the object has it. *)
Fixpoint assoc (k : string) (fields : list (string * json)) : option json :=
  match fields with
  | [] => None
  | (k', v) :: rest => if String.eqb k k' then Some v else assoc k rest
  end.

Definition field (k : string) (j : json) : option json :=
  match j with
  | JObject fields => assoc k fields
  | _ => None
  end.

Definition json_of_row (r : RowData) : json :=
  JObject [ ("jobName", JString (jobName r));
            ("score", JString (score r));
            ("count", JString (count r)) ]%string.

Definition json_of_data (d : ScrapedData) : json :=
  JObject [ ("zoneName", JString (zoneName d));
            ("bossName", JString (bossName d));
            ("tableRows", JArray (map json_of_row (tableRows d)));
            ("timestamp", JString (timestamp d)) ]%string.

(** ** The world outside the handler

    Every call the handler makes on Playwright or on the response either
    resolves or throws an [Error] with a message. The world fixes these
    outcomes, the page that [page.evaluate] runs in, and its clock. *)

Inductive outcome : Type :=
| Resolves
| Throws (message : jsstring).

Record world : Type := {
  launch_outcome : outcome;
  newContext_outcome : outcome;
  newPage_outcome : outcome;
  goto_outcome : jsstring -> outcome;
  waitForTimeout_outcome : outcome;
  waitForSelector_outcome : outcome;
  evaluate_outcome : outcome;
  page_document : Document;
  page_now : jsstring;
  (** by the number of earlier invocations of the same operation *)
  close_outcome : nat -> outcome;
  send_outcome : nat -> outcome
}.

(** The calls a run makes, in the order it makes them. *)
Inductive call : Type :=
| chromium_launch
| browser_newContext
| context_newPage
| page_setDefaultTimeout (ms : N)
| page_goto (url : jsstring)
| page_waitForTimeout (ms : N)
| page_waitForSelector (timeout : N)
| page_evaluate
| browser_close
| console_log (text : string)
| console_error (message : jsstring)
| res_send (status : nat) (body : json).

Definition is_close (c : call) : bool :=
  match c with browser_close => true | _ => false end.

Definition is_launch (c : call) : bool :=
  match c with chromium_launch => true | _ => false end.

Definition is_send (c : call) : bool :=
  match c with res_send _ _ => true | _ => false end.

Definition is_evaluate (c : call) : bool :=
  match c with page_evaluate => true | _ => false end.

Definition times (p : call -> bool) (cs : list call) : nat :=
  List.length (filter p cs).

(** The responses written, as (status, body). *)
Fixpoint responses (cs : list call) : list (nat * json) :=
  match cs with
  | [] => []
  | res_send st b :: cs' => (st, b) :: responses cs'
  | _ :: cs' => responses cs'
  end.

(** ** The handler's monad: a call log and the [browser] variable, with
    exceptions that keep both *)

Record state : Type := {
  browser : bool;          (** has [browser] been assigned a handle? *)
  calls : list call
}.

Definition initial : state := {| browser := false; calls := [] |}.

Inductive result (A : Type) : Type :=
| Returned (a : A)
| Thrown (message : jsstring).
Arguments Returned {A} a.
Arguments Thrown {A} message.

Definition M (A : Type) : Type := state -> result A * state.

Definition ret {A} (a : A) : M A := fun st => (Returned a, st).

Definition bind {A B} (m : M A) (k : A -> M B) : M B :=
  fun st =>
    match m st with
    | (Returned a, st') => k a st'
    | (Thrown e, st') => (Thrown e, st')
    end.

(** [try { m } catch (error) { handler }] *)
Definition try_catch {A} (m : M A) (handler : jsstring -> M A) : M A :=
  fun st =>
    match m st with
    | (Returned a, st') => (Returned a, st')
    | (Thrown e, st') => handler e st'
    end.

Declare Scope js_scope.
Delimit Scope js_scope with js.
Notation "x <- m ;; k" := (bind m (fun x => k))
  (at level 61, m at next level, right associativity) : js_scope.
Notation "m ;; k" := (bind m (fun _ => k))
  (at level 61, right associativity) : js_scope.

Definition record (c : call) (st : state) : state :=
  {| browser := browser st; calls := calls st ++ [c] |}.

(** Make a call whose outcome the world has fixed. *)
Definition perform (c : call) (o : outcome) : M unit :=
  fun st =>
    (match o with
     | Resolves => Returned tt
     | Throws m => Thrown m
     end, record c st).

Definition assign_browser : M unit :=
  fun st => (Returned tt, {| browser := true; calls := calls st |}).

Definition read_browser : M bool :=
  fun st => (Returned (browser st), st).

(** ** [new URL(input)]

    What the platform's constructor gives: a parsed URL, or nothing when it
    throws [TypeError]. *)

Record URL : Type := {
  protocol : jsstring;   (** the scheme followed by a colon *)
  after_scheme : jsstring
}.

Definition is_http_or_https (u : URL) : bool :=
  jsstring_eqb (protocol u) (str "http:")
  || jsstring_eqb (protocol u) (str "https:").

(** [!url] for the [url] field of the request body: absent, or the empty
    string. *)
Definition not_ (url : option jsstring) : bool :=
  match url with
  | Some (_ :: _) => false
  | _ => true
  end.

(** The request body, as far as the handler reads it: [req.body.url], a
    string, or [None] when the field is absent. *)
Record Request : Type := {
  body_url : option jsstring
}.

(** ** The [POST /scrape] handler (src/unnamed/part_001, lines 20-150) *)

Section Handler.

Local Open Scope js_scope.

(** The platform's URL constructor and the world of one request. *)
Variable URL_new : jsstring -> option URL.
Variable w : world.

(** [res.status(status).json(body)]; [res.json(body)] has status 200. *)
Definition res_json (status : nat) (body : json) : M unit :=
  fun st =>
    perform (res_send status body)
            (send_outcome w (times is_send (calls st))) st.

(** [await browser.close()] *)
Definition close : M unit :=
  fun st =>
    perform browser_close (close_outcome w (times is_close (calls st))) st.

(** [await page.evaluate(() => { ... })] *)
Definition evaluate : M ScrapedData :=
  perform page_evaluate (evaluate_outcome w) ;;
  ret (extract (page_document w) (page_now w)).

Definition url_required : json :=
  JObject [ ("error", JString (str "URL is required in request body"));
            ("example",
             JObject [ ("url", JString (str "https://example.com")) ])
          ]%string.

Definition invalid_url (url : jsstring) : json :=
  JObject [ ("error", JString (str "Invalid URL format"));
            ("provided", JString url) ]%string.

Definition scrape_ok (scrapedData : ScrapedData) : json :=
  JObject [ ("success", JBool true);
            ("data", json_of_data scrapedData) ]%string.

Definition scrape_failed (message : jsstring) : json :=
  JObject [ ("success", JBool false);
            ("error", JString (str "Failed to scrape the website"));
            ("message", JString message) ]%string.

(** The [try] block, lines 41-135. *)
Definition scrape_body (url : jsstring) : M unit :=
  perform chromium_launch (launch_outcome w) ;;
  assign_browser ;;
  perform browser_newContext (newContext_outcome w) ;;
  perform context_newPage (newPage_outcome w) ;;
  perform (page_setDefaultTimeout 30000%N) Resolves ;;
  perform (page_goto url) (goto_outcome w url) ;;
  try_catch
    (perform (page_waitForSelector 15000%N) (waitForSelector_outcome w))
    (fun _ =>
       perform
         (console_log "Table rows not found, continuing with page evaluation")
         Resolves) ;;
  scrapedData <- evaluate ;;
  close ;;
  res_json 200 (scrape_ok scrapedData).

(** The [catch] block, lines 137-149. *)
Definition scrape_catch (error : jsstring) : M unit :=
  perform (console_error error) Resolves ;;
  b <- read_browser ;;
  (if b then close else ret tt) ;;
  res_json 500 (scrape_failed error).

Definition post_scrape (req : Request) : M unit :=
  let url := body_url req in
  if not_ url then res_json 400 url_required
  else
    let url := match url with Some s => s | None => [] end in
    match URL_new url with
    | None => res_json 400 (invalid_url url)
    | Some _ => try_catch (scrape_body url) scrape_catch
    end.

(** One request, from the handler's entry until its promise settles. *)
Definition run (req : Request) : result unit * state :=
  post_scrape req initial.

Definition log (req : Request) : list call := calls (snd (run req)).

(** The validator lets the request through to the browser. *)
Definition accepts (url : jsstring) : bool :=
  negb (not_ (Some url))
  && match URL_new url with Some _ => true | None => false end.

End Handler.

(** ** The variant of the handler embedded in src/test-api.js
    (lines 87-232)

    It differs in the bodies of the 400 responses, in its timeouts, in a
    fixed 10 s pause before the content wait, in its console output and in
    building [tableRows] with [forEach] and [push]. Its [catch] block is the
    one above. *)

Module TestApi.

Definition extract (document : Document) (now : jsstring) : ScrapedData :=
  {| zoneName := text_or_empty (querySelector sel_zone document);
     bossName := text_or_empty (querySelector sel_boss document);
     tableRows := extract_tableRows_forEach document;
     timestamp := now |}.

Section Handler.

Local Open Scope js_scope.

Variable URL_new : jsstring -> option URL.
Variable w : world.

Definition evaluate : M ScrapedData :=
  perform page_evaluate (evaluate_outcome w) ;;
  ret (extract (page_document w) (page_now w)).

Definition example : json :=
  JObject [ ("url", JString (str "https://example.com")) ]%string.

Definition url_required : json :=
  JObject [ ("error", JString (str "URL is required"));
            ("example", example) ]%string.

Definition invalid_url : json :=
  JObject [ ("error", JString (str "Invalid URL format"));
            ("example", example) ]%string.

Definition scrape_body (url : jsstring) : M unit :=
  perform chromium_launch (launch_outcome w) ;;
  assign_browser ;;
  perform browser_newContext (newContext_outcome w) ;;
  perform context_newPage (newPage_outcome w) ;;
  perform (page_setDefaultTimeout 60000%N) Resolves ;;
  perform (console_log "Navigating to:") Resolves ;;
  perform (page_goto url) (goto_outcome w url) ;;
  perform (console_log "Waiting for page to load...") Resolves ;;
  perform (page_waitForTimeout 10000%N) (waitForTimeout_outcome w) ;;
  try_catch
    (perform (page_waitForSelector 30000%N) (waitForSelector_outcome w) ;;
     perform (console_log "Page content found") Resolves)
    (fun _ =>
       perform
         (console_log "Expected elements not found, continuing anyway...")
         Resolves) ;;
  scrapedData <- evaluate ;;
  close w ;;
  perform (console_log "Scraping completed successfully") Resolves ;;
  res_json w 200 (scrape_ok scrapedData).

Definition post_scrape (req : Request) : M unit :=
  let url := body_url req in
  if not_ url then res_json w 400 url_required
  else
    let url := match url with Some s => s | None => [] end in
    match URL_new url with
    | None => res_json w 400 invalid_url
    | Some _ => try_catch (scrape_body url) (scrape_catch w)
    end.

Definition log (req : Request) : list call :=
  calls (snd (post_scrape req initial)).

End Handler.

End TestApi.

(** ** A model of the platform's [new URL(input)]

    The WHATWG basic URL parser without a base URL, as far as it decides
    between a result and a [TypeError]: the input is stripped, the scheme is
    scanned, and the authority of a hierarchical URL is checked. Hosts are
    only checked against the forbidden code points and ports against their
    range; percent-decoding, IDNA and the IPv4 and IPv6 literal parsers are
    left out, so the model is exact on plain ASCII host names. The handler
    and the statements about it take the constructor as a parameter; this
    model serves the runs on concrete requests. *)

Module Whatwg.

Local Open Scope N_scope.

Definition is_c0_or_space (c : N) : bool := c <=? 32.

Definition is_tab_or_newline (c : N) : bool :=
  (c =? 9) || (c =? 10) || (c =? 13).

Definition is_upper (c : N) : bool := (65 <=? c) && (c <=? 90).
Definition is_lower (c : N) : bool := (97 <=? c) && (c <=? 122).
Definition is_alpha (c : N) : bool := is_upper c || is_lower c.
Definition is_digit (c : N) : bool := (48 <=? c) && (c <=? 57).
Definition lower (c : N) : N := if is_upper c then c + 32 else c.

Fixpoint strip_leading (s : jsstring) : jsstring :=
  match s with
  | c :: s' => if is_c0_or_space c then strip_leading s' else s
  | [] => []
  end.

Definition strip (s : jsstring) : jsstring :=
  rev (strip_leading (rev (strip_leading s))).

Definition clean (s : jsstring) : jsstring :=
  filter (fun c => negb (is_tab_or_newline c)) (strip s).

(** Scheme state: letters, digits, [+], [-], [.] up to the colon. *)
Fixpoint scheme_state (s buffer : jsstring) : option (jsstring * jsstring) :=
  match s with
  | [] => None
  | c :: s' =>
      if is_alpha c || is_digit c || (c =? 43) || (c =? 45) || (c =? 46)
      then scheme_state s' (buffer ++ [lower c])
      else if c =? 58 then Some (buffer, s') else None
  end.

(** Scheme start state; without a scheme and without a base: failure. *)
Definition scheme_start_state (s : jsstring) : option (jsstring * jsstring) :=
  match s with
  | c :: s' => if is_alpha c then scheme_state s' [lower c] else None
  | [] => None
  end.

Definition is_special (scheme : jsstring) : bool :=
  existsb (jsstring_eqb scheme)
          [str "ftp"; str "file"; str "http"; str "https"; str "ws"; str "wss"].

Definition is_slash (c : N) : bool := (c =? 47) || (c =? 92).

Fixpoint skip_slashes (s : jsstring) : jsstring :=
  match s with
  | c :: s' => if is_slash c then skip_slashes s' else s
  | [] => []
  end.

(** The authority ends at [/], [?], [#], and at a backslash when the
    scheme is special. *)
Fixpoint authority (special : bool) (s : jsstring) : jsstring :=
  match s with
  | c :: s' =>
      if (c =? 47) || (c =? 63) || (c =? 35) || (special && (c =? 92))
      then [] else c :: authority special s'
  | [] => []
  end.

(** Credentials before the last [@], host and port after it. *)
Fixpoint split_last_at (s : jsstring) : option jsstring * jsstring :=
  match s with
  | [] => (None, [])
  | c :: s' =>
      match split_last_at s' with
      | (Some cred, hp) => (Some (c :: cred), hp)
      | (None, hp) => if c =? 64 then (Some [], hp) else (None, c :: hp)
      end
  end.

Fixpoint split_port (s : jsstring) : jsstring * option jsstring :=
  match s with
  | [] => ([], None)
  | c :: s' =>
      if c =? 58 then ([], Some s')
      else let (h, p) := split_port s' in (c :: h, p)
  end.

Definition forbidden_host (c : N) : bool :=
  existsb (N.eqb c) [0; 9; 10; 13; 32; 35; 47; 58; 60; 62; 63; 64; 91; 92;
                     93; 94; 124].

Definition forbidden_domain (c : N) : bool :=
  forbidden_host c || (c <=? 31) || (c =? 37) || (c =? 127).

Definition port_value (p : jsstring) : N :=
  fold_left (fun acc c => 10 * acc + (c - 48)) p 0.

Definition port_ok (p : option jsstring) : bool :=
  match p with
  | None => true
  | Some digits => forallb is_digit digits && (port_value digits <=? 65535)
  end.

Definition authority_ok (special : bool) (auth : jsstring) : bool :=
  let (cred, hostport) := split_last_at auth in
  let (host, port) := split_port hostport in
  match host with
  | [] =>
      negb special
      && match cred, port with None, None => true | _, _ => false end
  | _ =>
      forallb (fun c => negb (if special then forbidden_domain c
                              else forbidden_host c)) host
      && port_ok port
  end.

(** A Windows drive letter, which the file host state takes for the
    start of the path. *)
Definition is_drive_letter (buffer : jsstring) : bool :=
  match buffer with
  | [a; b] => is_alpha a && ((b =? 58) || (b =? 124))
  | _ => false
  end.

Definition starts_with_two_slashes (special : bool) (s : jsstring) : bool :=
  match s with
  | a :: b :: _ =>
      if special then is_slash a && is_slash b else (a =? 47) && (b =? 47)
  | _ => false
  end.

Definition parse (input : jsstring) : option URL :=
  match scheme_start_state (clean input) with
  | None => None
  | Some (scheme, rest) =>
      let url := {| protocol := scheme ++ [58]; after_scheme := rest |} in
      if jsstring_eqb scheme (str "file") then
        if starts_with_two_slashes true rest then
          let host := authority true (List.skipn 2 rest) in
          if is_drive_letter host
             || forallb (fun c => negb (forbidden_domain c)) host
          then Some url else None
        else Some url
      else if is_special scheme then
        if authority_ok true (authority true (skip_slashes rest))
        then Some url else None
      else if starts_with_two_slashes false rest then
        if authority_ok false (authority false (List.skipn 2 rest))
        then Some url else None
      else Some url
  end.

End Whatwg.

(** ** Vocabulary of the statements *)

(** [cells.length >= 4] *)
Definition keeps (row : node) : bool := 4 <=? List.length (cells_of row).

(** The object built for a row that is kept. *)
Definition object_of (row : node) : RowData :=
  {| jobName := text_or_empty (nth_error (cells_of row) 0);
     score := text_or_empty (nth_error (cells_of row) 1);
     count := text_or_empty (nth_error (cells_of row) 3) |}.

(** The same world with another outcome of [page.waitForSelector]. *)
Definition with_waitForSelector (o : outcome) (w : world) : world :=
  {| launch_outcome := launch_outcome w;
     newContext_outcome := newContext_outcome w;
     newPage_outcome := newPage_outcome w;
     goto_outcome := goto_outcome w;
     waitForTimeout_outcome := waitForTimeout_outcome w;
     waitForSelector_outcome := o;
     evaluate_outcome := evaluate_outcome w;
     page_document := page_document w;
     page_now := page_now w;
     close_outcome := close_outcome w;
     send_outcome := send_outcome w |}.

(** The request carries [url], and validation lets it through. *)
Definition valid_request (URL_new : jsstring -> option URL) (req : Request)
    (url : jsstring) : Prop :=
  body_url req = Some url /\ url <> [] /\ URL_new url <> None.

(** The browser is launched and a page is opened. *)
Definition page_opens (w : world) : Prop :=
  launch_outcome w = Resolves
  /\ newContext_outcome w = Resolves
  /\ newPage_outcome w = Resolves.

(** Releasing the browser and writing the response go through at the
    first attempt. *)
Definition release_and_send_resolve (w : world) : Prop :=
  close_outcome w 0 = Resolves /\ send_outcome w 0 = Resolves.

(** Navigation and evaluation go through as well; the content wait may
    still end either way. *)
Definition page_loads (w : world) (url : jsstring) : Prop :=
  page_opens w
  /\ goto_outcome w url = Resolves
  /\ evaluate_outcome w = Resolves
  /\ release_and_send_resolve w.

(** The bodies of the error-handling middleware and of the 404 handler
    (src/unnamed/part_001, lines 195-209). *)
Definition internal_server_error : nat * json :=
  (500, JObject [ ("success", JBool false);
                  ("error", JString (str "Internal server error")) ]%string).

Definition endpoint_not_found : nat * json :=
  (404, JObject [ ("success", JBool false);
                  ("error", JString (str "Endpoint not found")) ]%string).

(** ** Sample pages and worlds *)

Module Sample.

Definition td (text : string) : node :=
  Element (str "td") None [] [Text (str text)].

Definition tr (class : string) (cells : list node) : node :=
  Element (str "tr") None [str class] cells.

Definition row_paladin : node :=
  tr "odd" [td " Paladin "; td "98.10"; td "ignored"; td "1234 "].

Definition row_short : node :=
  tr "even" [td "Monk"; td "97.00"].

Definition row_monk : node :=
  tr "even" [td "Monk"; td "97.00"; td "also ignored"; td "88"; td "extra"].

Definition zone_link : node :=
  Element (str "a") None [str "zone-name"] [Text (str "  Arcadion ")].

Definition boss_text : node :=
  Element (str "div") (Some (str "filter-boss-text")) []
          [Comment (str "boss"); Text (str "Dancing Green")].

Definition table (rows : list node) : node :=
  Element (str "table") None [] [Element (str "tbody") None [] rows].

Definition html (body : list node) : Document :=
  [Element (str "html") None [] [Element (str "body") None [] body]].

(** A statistics page as the selectors expect it. *)
Definition page : Document :=
  html [zone_link; boss_text; table [row_paladin; row_short; row_monk]].

(** A page with none of the elements, such as example.com. *)
Definition plain_page : Document :=
  html [Element (str "h1") None [] [Text (str "Example Domain")]].

(** Every call resolves. *)
Definition calm (document : Document) : world :=
  {| launch_outcome := Resolves;
     newContext_outcome := Resolves;
     newPage_outcome := Resolves;
     goto_outcome := fun _ => Resolves;
     waitForTimeout_outcome := Resolves;
     waitForSelector_outcome := Resolves;
     evaluate_outcome := Resolves;
     page_document := document;
     page_now := str "2024-01-01T00:00:00.000Z";
     close_outcome := fun _ => Resolves;
     send_outcome := fun _ => Resolves |}.

(** Every call resolves, on another day. *)
Definition later (document : Document) : world :=
  {| launch_outcome := Resolves;
     newContext_outcome := Resolves;
     newPage_outcome := Resolves;
     goto_outcome := fun _ => Resolves;
     waitForTimeout_outcome := Resolves;
     waitForSelector_outcome := Resolves;
     evaluate_outcome := Resolves;
     page_document := document;
     page_now := str "2025-06-30T12:00:00.000Z";
     close_outcome := fun _ => Resolves;
     send_outcome := fun _ => Resolves |}.

(** The content wait runs into its 15 s bound. *)
Definition wait_times_out (document : Document) : world :=
  with_waitForSelector
    (Throws (str "page.waitForSelector: Timeout 15000ms exceeded."))
    (calm document).

(** Navigation fails. *)
Definition unreachable : world :=
  {| launch_outcome := Resolves;
     newContext_outcome := Resolves;
     newPage_outcome := Resolves;
     goto_outcome := fun _ => Throws (str "page.goto: Timeout 30000ms exceeded.");
     waitForTimeout_outcome := Resolves;
     waitForSelector_outcome := Resolves;
     evaluate_outcome := Resolves;
     page_document := [];
     page_now := [];
     close_outcome := fun _ => Resolves;
     send_outcome := fun _ => Resolves |}.

(** Everything resolves but the first [browser.close()]. *)
Definition close_rejects : world :=
  {| launch_outcome := Resolves;
     newContext_outcome := Resolves;
     newPage_outcome := Resolves;
     goto_outcome := fun _ => Resolves;
     waitForTimeout_outcome := Resolves;
     waitForSelector_outcome := Resolves;
     evaluate_outcome := Resolves;
     page_document := plain_page;
     page_now := str "2024-01-01T00:00:00.000Z";
     close_outcome :=
       fun n => match n with
                | 0 => Throws (str "browser.close: Connection closed")
                | _ => Resolves
                end;
     send_outcome := fun _ => Resolves |}.

(** Everything resolves but writing the 200 response. *)
Definition send_throws : world :=
  {| launch_outcome := Resolves;
     newContext_outcome := Resolves;
     newPage_outcome := Resolves;
     goto_outcome := fun _ => Resolves;
     waitForTimeout_outcome := Resolves;
     waitForSelector_outcome := Resolves;
     evaluate_outcome := Resolves;
     page_document := plain_page;
     page_now := str "2024-01-01T00:00:00.000Z";
     close_outcome := fun _ => Resolves;
     send_outcome :=
       fun n => match n with
                | 0 => Throws (str "write after end")
                | _ => Resolves
                end |}.

Definition request (url : string) : Request :=
  {| body_url := Some (str url) |}.

Definition no_url : Request := {| body_url := None |}.

End Sample.

(** ** Further vocabulary: stages, order and trimmed text *)

Definition is_goto (c : call) : bool :=
  match c with page_goto _ => true | _ => false end.

Definition is_newContext (c : call) : bool :=
  match c with browser_newContext => true | _ => false end.

(** [res.json] of the success response, the only one without
    [res.status]. *)
Definition is_send_200 (c : call) : bool :=
  match c with res_send status _ => Nat.eqb status 200 | _ => false end.

(** Every call satisfying [q] comes after some call satisfying [p];
    [seen] tells whether a [p] call came before the list. *)
Fixpoint preceded_by (p q : call -> bool) (seen : bool) (cs : list call)
  : bool :=
  match cs with
  | [] => true
  | c :: cs' => (negb (q c) || seen) && preceded_by p q (seen || p c) cs'
  end.

(** A call between the launch and the release throws [failure], all
    calls before it having resolved. *)
Definition fault_before_release (w : world) (url failure : jsstring) : Prop :=
  newContext_outcome w = Throws failure
  \/ (newContext_outcome w = Resolves
      /\ newPage_outcome w = Throws failure)
  \/ (newContext_outcome w = Resolves
      /\ newPage_outcome w = Resolves
      /\ goto_outcome w url = Throws failure)
  \/ (newContext_outcome w = Resolves
      /\ newPage_outcome w = Resolves
      /\ goto_outcome w url = Resolves
      /\ evaluate_outcome w = Throws failure).

(** Text without white space at either end. *)
Definition trimmed (s : jsstring) : Prop :=
  (forall c rest, s = c :: rest -> is_js_space c = false)
  /\ (forall front c, s = front ++ [c] -> is_js_space c = false)
  /\ trim s = s.

Definition row_trimmed (r : RowData) : Prop :=
  trimmed (jobName r) /\ trimmed (score r) /\ trimmed (count r).

(** Induction on a node with the property at hand for all its children. *)
Definition node_ind_all (P : node -> Prop)
    (HText : forall d, P (Text d))
    (HComment : forall d, P (Comment d))
    (HElement : forall tag i cls ch,
        Forall P ch -> P (Element tag i cls ch))
  : forall n, P n :=
  fix go (n : node) : P n :=
    match n with
    | Text d => HText d
    | Comment d => HComment d
    | Element tag i cls ch =>
        HElement tag i cls ch
          ((fix all (l : list node) : Forall P l :=
              match l with
              | [] => Forall_nil P
              | x :: l' => Forall_cons x (go x) (all l')
              end) ch)
    end.

(** ** [GET /scrape] of the variant (src/test-api.js, lines 235-254)

    [query_url] is [req.query.url]: a string, or [None] when the parameter
    is absent. *)

Definition get_scrape_url_required : json :=
  JObject [ ("error", JString (str "URL parameter is required"));
            ("example", JString (str "/scrape?url=https://example.com"))
          ]%string.

Definition get_scrape_use_post : json :=
  JObject [ ("message",
             JString (str "Please use POST /scrape with URL in request body"));
            ("example",
             JObject [ ("method", JString (str "POST"));
                       ("url", JString (str "/scrape"));
                       ("body",
                        JObject [ ("url",
                                   JString (str "https://example.com")) ]) ])
          ]%string.

Definition get_scrape (w : world) (query_url : option jsstring) : M unit :=
  if not_ query_url then res_json w 400 get_scrape_url_required
  else res_json w 200 get_scrape_use_post.

(** ** A sample page with a table inside a table *)

Module Nested.

(** A row of a table that sits in a cell of [outer_row]. *)
Definition inner_row : node :=
  Sample.tr "even"
    [Sample.td "Monk"; Sample.td "97.00"; Sample.td "x"; Sample.td "88"].

(** A row with two cells of its own. *)
Definition outer_row : node :=
  Sample.tr "odd"
    [ Sample.td "Details";
      Element (str "td") None [] [Sample.table [inner_row]] ].

Definition page : Document := Sample.html [Sample.table [outer_row]].

End Nested.

(** ** Worlds with more faults *)

Module Faults.

(** Navigation fails, and so does the release in the [catch] block. *)
Definition navigation_and_close_fail : world :=
  {| launch_outcome := Resolves;
     newContext_outcome := Resolves;
     newPage_outcome := Resolves;
     goto_outcome := fun _ => Throws (str "net::ERR_NAME_NOT_RESOLVED");
     waitForTimeout_outcome := Resolves;
     waitForSelector_outcome := Resolves;
     evaluate_outcome := Resolves;
     page_document := [];
     page_now := [];
     close_outcome := fun _ => Throws (str "browser.close: Connection closed");
     send_outcome := fun _ => Resolves |}.

(** The browser cannot be launched. *)
Definition no_browser : world :=
  {| launch_outcome := Throws (str "browserType.launch: Executable missing");
     newContext_outcome := Resolves;
     newPage_outcome := Resolves;
     goto_outcome := fun _ => Resolves;
     waitForTimeout_outcome := Resolves;
     waitForSelector_outcome := Resolves;
     evaluate_outcome := Resolves;
     page_document := [];
     page_now := [];
     close_outcome := fun _ => Resolves;
     send_outcome := fun _ => Resolves |}.

(** The page loads, but it is closed during the fixed pause of the
    variant. *)
Definition pause_fails : world :=
  {| launch_outcome := Resolves;
     newContext_outcome := Resolves;
     newPage_outcome := Resolves;
     goto_outcome := fun _ => Resolves;
     waitForTimeout_outcome :=
       Throws (str "page.waitForTimeout: Target closed");
     waitForSelector_outcome := Resolves;
     evaluate_outcome := Resolves;
     page_document := Sample.page;
     page_now := str "2024-01-01T00:00:00.000Z";
     close_outcome := fun _ => Resolves;
     send_outcome := fun _ => Resolves |}.

End Faults.

(** What a run is checked for: no stage is repeated, and the stages come in
    their order. *)
Definition in_order (l : list call) : bool :=
  (times is_launch l <=? 1)
  && (times is_goto l <=? 1)
  && (times is_evaluate l <=? 1)
  && preceded_by is_launch is_goto false l
  && preceded_by is_goto is_evaluate false l
  && preceded_by is_evaluate is_send_200 false l.

(** ** Tactics for runs of the handler *)

Ltac unfold_handler :=
  unfold TestApi.log, TestApi.post_scrape, TestApi.scrape_body,
    TestApi.evaluate, log, run, post_scrape, scrape_body, scrape_catch,
    evaluate, close, res_json, try_catch, bind, perform, ret,
    assign_browser, read_browser, record, initial;
  cbn.

(** Split on the next outcome the run depends on. *)
Ltac next_outcome :=
  match goal with
  | |- context [match ?o with Resolves => _ | Throws _ => _ end] =>
      lazymatch o with
      | context [match _ with Resolves => _ | Throws _ => _ end] => fail
      | _ => destruct o eqn:?; cbn
      end
  end.

Ltac all_outcomes := unfold_handler; repeat next_outcome.

Ltac use_outcomes :=
  repeat (match goal with
          | H : _ = Resolves |- _ => rewrite H
          | H : _ = Throws _ |- _ => rewrite H
          end; cbn).

(** * Properties *)

(** ** Rows *)

Lemma filter_not_null_app {A} (l1 l2 : list (option A)) :
  filter_not_null (l1 ++ l2) = filter_not_null l1 ++ filter_not_null l2.
Proof.
  induction l1 as [| [a|] l1 IH]; simpl; [reflexivity | f_equal |]; exact IH.
Qed.

Lemma map_filter_rows_app (l1 l2 : list node) :
  map_filter_rows (l1 ++ l2) = map_filter_rows l1 ++ map_filter_rows l2.
Proof.
  unfold map_filter_rows. rewrite map_app. apply filter_not_null_app.
Qed.

Lemma row_object_keeps (row : node) :
  row_object row = if keeps row then Some (object_of row) else None.
Proof. reflexivity. Qed.

Lemma map_filter_rows_cons (row : node) (rows : list node) :
  map_filter_rows (row :: rows)
  = if keeps row then object_of row :: map_filter_rows rows
    else map_filter_rows rows.
Proof.
  unfold map_filter_rows. simpl. rewrite row_object_keeps.
  destruct (keeps row); reflexivity.
Qed.

Lemma map_filter_rows_filter (rows : list node) :
  map_filter_rows rows = map object_of (filter keeps rows).
Proof.
  induction rows as [| row rows IH]; [reflexivity |].
  rewrite map_filter_rows_cons. simpl.
  destruct (keeps row); simpl; rewrite IH; reflexivity.
Qed.

(** A row with four cells has cells 0, 1 and 3. *)
Lemma four_cells (cells : list node) :
  4 <= List.length cells ->
  exists c0 c1 c2 c3 rest, cells = c0 :: c1 :: c2 :: c3 :: rest.
Proof.
  destruct cells as [| c0 [| c1 [| c2 [| c3 rest]]]]; simpl; try lia.
  intros _. now exists c0, c1, c2, c3, rest.
Qed.

Lemma keeps_spec (row : node) :
  keeps row = true <-> 4 <= List.length (cells_of row).
Proof. unfold keeps. apply Nat.leb_le. Qed.

(** The [forEach]/[push] loop appends what [map]/[filter] computes. *)
Lemma forEach_push_spec (rows : list node) (acc : list RowData) :
  forEach_push rows acc = acc ++ map_filter_rows rows.
Proof.
  revert acc. induction rows as [| row rows IH]; intros acc.
  - simpl. now rewrite app_nil_r.
  - rewrite map_filter_rows_cons. cbn [forEach_push].
    unfold keeps, object_of.
    destruct (4 <=? List.length (cells_of row)) eqn:E.
    + apply Nat.leb_le, four_cells in E.
      destruct E as (c0 & c1 & c2 & c3 & rest & ->).
      cbn [nth_error text_or_empty].
      rewrite IH, <- app_assoc. reflexivity.
    + apply IH.
Qed.

Lemma querySelector_first (s : selector) (scope : list node) :
  querySelector s scope = hd_error (querySelectorAll s scope).
Proof.
  unfold querySelector, querySelectorAll.
  induction (flat_map subtree scope) as [| n l IH]; [reflexivity |].
  simpl. destruct (matches s n); [reflexivity | exact IH].
Qed.

(** C5: among the rows matched in the document, a row with fewer than four
    [td] cells contributes nothing to [tableRows]; a row with at least four
    contributes exactly one object, each of whose sub-fields is the trimmed
    text of its cell, or the empty string should that cell be absent. *)
Theorem short_rows_excluded_absent_cells_empty :
  forall (document : Document) (before after : list node) (row : node),
    querySelectorAll sel_rows document = before ++ row :: after ->
    let cell i :=
      match nth_error (cells_of row) i with
      | Some c => trim (textContent c)
      | None => []
      end in
    (List.length (cells_of row) < 4 ->
     extract_tableRows document
     = map_filter_rows before ++ map_filter_rows after)
    /\ (4 <= List.length (cells_of row) ->
        extract_tableRows document
        = map_filter_rows before
          ++ {| jobName := cell 0; score := cell 1; count := cell 3 |}
          :: map_filter_rows after).
Proof.
  intros document before after row Hrows cell.
  unfold extract_tableRows. rewrite Hrows, map_filter_rows_app.
  rewrite map_filter_rows_cons. unfold keeps.
  split; intros Hlen.
  - apply Nat.leb_gt in Hlen. rewrite Hlen. reflexivity.
  - apply Nat.leb_le in Hlen. rewrite Hlen. reflexivity.
Qed.

Lemma short_rows_excluded_absent_cells_empty_witness :
  extract_tableRows (Sample.html [Sample.table [Sample.row_short]]) = []
  /\ extract_tableRows (Sample.html [Sample.table [Sample.row_paladin]])
     = [ {| jobName := str "Paladin"; score := str "98.10";
            count := str "1234" |} ].
Proof.
  split.
  - apply (short_rows_excluded_absent_cells_empty
             (Sample.html [Sample.table [Sample.row_short]])
             [] [] Sample.row_short eq_refl).
    vm_compute. lia.
  - apply (short_rows_excluded_absent_cells_empty
             (Sample.html [Sample.table [Sample.row_paladin]])
             [] [] Sample.row_paladin eq_refl).
    vm_compute. lia.
Defined.

(** C6: [tableRows] lists the objects of the kept rows in the order of the
    matched rows in the document, in the [map]/[filter] form of the server
    and in the [forEach]/[push] form of its variant alike; of two kept rows
    the one earlier in the document comes earlier in [tableRows]. *)
Theorem tableRows_in_document_order :
  forall (document : Document),
    let rows := querySelectorAll sel_rows document in
    extract_tableRows document = map object_of (filter keeps rows)
    /\ extract_tableRows_forEach document = extract_tableRows document
    /\ forall l1 r1 l2 r2 l3,
        rows = l1 ++ r1 :: l2 ++ r2 :: l3 ->
        keeps r1 = true -> keeps r2 = true ->
        extract_tableRows document
        = map_filter_rows l1 ++ object_of r1
          :: map_filter_rows l2 ++ object_of r2 :: map_filter_rows l3.
Proof.
  intros document rows. split; [| split].
  - apply map_filter_rows_filter.
  - unfold extract_tableRows_forEach. rewrite forEach_push_spec. reflexivity.
  - intros l1 r1 l2 r2 l3 Hrows K1 K2.
    unfold extract_tableRows. fold rows. rewrite Hrows.
    rewrite map_filter_rows_app, map_filter_rows_cons, K1.
    rewrite map_filter_rows_app, map_filter_rows_cons, K2.
    reflexivity.
Qed.

Lemma tableRows_in_document_order_witness :
  extract_tableRows Sample.page
  = [ object_of Sample.row_paladin; object_of Sample.row_monk ].
Proof.
  destruct (tableRows_in_document_order Sample.page) as (_ & _ & H).
  apply (H [] Sample.row_paladin [Sample.row_short] Sample.row_monk []);
    reflexivity.
Defined.

(** C10: a kept row has cells 0 to 3; its [jobName], [score] and [count] are
    the trimmed texts of cells 0, 1 and 3, in both forms of the row loop, and
    a row that differs from it in cell 2 only gives the same object. *)
Theorem row_fields_from_cells_0_1_3 :
  forall (row : node),
    keeps row = true ->
    exists c0 c1 c2 c3 rest,
      cells_of row = c0 :: c1 :: c2 :: c3 :: rest
      /\ row_object row
         = Some {| jobName := trim (textContent c0);
                   score := trim (textContent c1);
                   count := trim (textContent c3) |}
      /\ forEach_push [row] []
         = [ {| jobName := trim (textContent c0);
                score := trim (textContent c1);
                count := trim (textContent c3) |} ]
      /\ forall (row' c2' : node),
          cells_of row' = c0 :: c1 :: c2' :: c3 :: rest ->
          row_object row' = row_object row
          /\ forEach_push [row'] [] = forEach_push [row] [].
Proof.
  intros row K.
  destruct (four_cells (cells_of row) (proj1 (keeps_spec row) K))
    as (c0 & c1 & c2 & c3 & rest & E).
  exists c0, c1, c2, c3, rest.
  assert (R : forall r x,
             cells_of r = c0 :: c1 :: x :: c3 :: rest ->
             row_object r
             = Some {| jobName := trim (textContent c0);
                       score := trim (textContent c1);
                       count := trim (textContent c3) |}).
  { intros r x Er. unfold row_object. rewrite Er. reflexivity. }
  assert (F : forall r x,
             cells_of r = c0 :: c1 :: x :: c3 :: rest ->
             forEach_push [r] []
             = [ {| jobName := trim (textContent c0);
                    score := trim (textContent c1);
                    count := trim (textContent c3) |} ]).
  { intros r x Er. cbn [forEach_push]. rewrite Er. reflexivity. }
  repeat split.
  - exact E.
  - exact (R row c2 E).
  - exact (F row c2 E).
  - rewrite (R row c2 E). eapply R; eassumption.
  - rewrite (F row c2 E). eapply F; eassumption.
Qed.

Lemma row_fields_from_cells_0_1_3_witness :
  exists c0 c1 c2 c3 rest,
    cells_of Sample.row_paladin = c0 :: c1 :: c2 :: c3 :: rest
    /\ row_object Sample.row_paladin
       = Some {| jobName := trim (textContent c0);
                 score := trim (textContent c1);
                 count := trim (textContent c3) |}.
Proof.
  destruct (row_fields_from_cells_0_1_3 Sample.row_paladin eq_refl)
    as (c0 & c1 & c2 & c3 & rest & E & R & _).
  exists c0, c1, c2, c3, rest. split; assumption.
Defined.

(** ** Runs of the handler *)

(** C4: a string that [new URL] rejects gets the 400 response as the only
    call of the run; [chromium.launch] is never invoked. *)
Theorem unparsable_url_never_launches :
  forall (URL_new : jsstring -> option URL) (w : world) (url : jsstring),
    URL_new url = None ->
    let req := {| body_url := Some url |} in
    log URL_new w req
    = [ res_send 400 (match url with
                      | [] => url_required
                      | _ => invalid_url url
                      end) ]
    /\ times is_launch (log URL_new w req) = 0.
Proof.
  intros URL_new w url Hparse req. subst req.
  destruct url as [| c url]; unfold_handler.
  - split; reflexivity.
  - rewrite Hparse. cbn. split; reflexivity.
Qed.

Lemma unparsable_url_never_launches_witness :
  log Whatwg.parse (Sample.calm Sample.plain_page) (Sample.request "not-a-url")
  = [ res_send 400 (invalid_url (str "not-a-url")) ]
  /\ times is_launch
       (log Whatwg.parse (Sample.calm Sample.plain_page)
            (Sample.request "not-a-url")) = 0.
Proof.
  apply (unparsable_url_never_launches
           Whatwg.parse (Sample.calm Sample.plain_page) (str "not-a-url")).
  vm_compute. reflexivity.
Defined.

(** The variant validates in the same way. *)
Lemma TestApi_unparsable_url_never_launches :
  forall (URL_new : jsstring -> option URL) (w : world) (url : jsstring),
    URL_new url = None ->
    exists body,
      TestApi.log URL_new w {| body_url := Some url |} = [ res_send 400 body ].
Proof.
  intros URL_new w url Hparse.
  destruct url as [| c url]; unfold_handler.
  - eexists; reflexivity.
  - rewrite Hparse. cbn. eexists; reflexivity.
Qed.

Lemma accepts_spec (URL_new : jsstring -> option URL) (url : jsstring) :
  accepts URL_new url = true <-> url <> [] /\ exists u, URL_new url = Some u.
Proof.
  unfold accepts. destruct url as [| c url]; cbn.
  - split; [discriminate | intros [H _]; now elim H].
  - destruct (URL_new (c :: url)) as [u |]; split; try discriminate.
    + intros _. split; [discriminate | now exists u].
    + reflexivity.
    + intros [_ [u Hu]]. discriminate.
Qed.

(** C1, as the code has it: the validator accepts a string exactly when it
    is not empty and [new URL] parses it, whatever its scheme; a string it
    does not accept gets a 400 response and nothing else happens, a string
    it accepts takes the run to [chromium.launch]. *)
Theorem validator_accepts_every_parsable_url :
  forall (URL_new : jsstring -> option URL) (w : world) (url : jsstring),
    let req := {| body_url := Some url |} in
    (accepts URL_new url = true
     <-> url <> [] /\ exists u, URL_new url = Some u)
    /\ (accepts URL_new url = false ->
        exists body, log URL_new w req = [ res_send 400 body ])
    /\ (accepts URL_new url = true ->
        exists rest, log URL_new w req = chromium_launch :: rest).
Proof.
  intros URL_new w url req. subst req.
  split; [apply accepts_spec |].
  unfold accepts.
  destruct url as [| c url]; cbn.
  - split; [intros _ | discriminate].
    unfold_handler. eexists; reflexivity.
  - destruct (URL_new (c :: url)) as [u |] eqn:Hparse; cbn;
      (split; [| try discriminate]); try discriminate.
    + intros _. unfold_handler. rewrite Hparse. cbn.
      repeat next_outcome; eexists; reflexivity.
    + intros _. unfold_handler. rewrite Hparse. cbn.
      eexists; reflexivity.
Qed.

Lemma validator_accepts_every_parsable_url_witness :
  (exists body,
      log Whatwg.parse (Sample.calm Sample.plain_page)
          (Sample.request "not-a-url") = [ res_send 400 body ])
  /\ (exists rest,
         log Whatwg.parse (Sample.calm Sample.plain_page)
             (Sample.request "https://example.com") = chromium_launch :: rest).
Proof.
  split.
  - apply (validator_accepts_every_parsable_url
             Whatwg.parse (Sample.calm Sample.plain_page) (str "not-a-url")).
    vm_compute. reflexivity.
  - apply (validator_accepts_every_parsable_url
             Whatwg.parse (Sample.calm Sample.plain_page)
             (str "https://example.com")).
    vm_compute. reflexivity.
Defined.

(** C1 fails as stated: ["file:///etc/passwd"] and ["ftp://example.com"]
    parse with schemes [file] and [ftp] and are accepted; the run launches
    the browser for both, answers 200 for the first when the page loads, and
    answers 500, not 400, for the second when navigation fails. *)
Lemma non_http_urls_are_accepted_and_scraped :
  let file := str "file:///etc/passwd" in
  let ftp := str "ftp://example.com" in
  (exists u, Whatwg.parse file = Some u
             /\ protocol u = str "file:"
             /\ is_http_or_https u = false)
  /\ (exists u, Whatwg.parse ftp = Some u
                /\ protocol u = str "ftp:"
                /\ is_http_or_https u = false)
  /\ accepts Whatwg.parse file = true
  /\ accepts Whatwg.parse ftp = true
  /\ ~ (accepts Whatwg.parse file = true
        <-> exists u, Whatwg.parse file = Some u /\ is_http_or_https u = true)
  /\ times is_launch
       (log Whatwg.parse (Sample.calm Sample.plain_page)
            (Sample.request "file:///etc/passwd")) = 1
  /\ map fst (responses
                (log Whatwg.parse (Sample.calm Sample.plain_page)
                     (Sample.request "file:///etc/passwd"))) = [200]
  /\ times is_launch
       (log Whatwg.parse Sample.unreachable
            (Sample.request "ftp://example.com")) = 1
  /\ map fst (responses
                (log Whatwg.parse Sample.unreachable
                     (Sample.request "ftp://example.com"))) = [500].
Proof.
  cbv zeta. repeat apply conj; try reflexivity.
  - eexists. split; [vm_compute; reflexivity |]. split; reflexivity.
  - eexists. split; [vm_compute; reflexivity |]. split; reflexivity.
  - intros [H _]. destruct (H eq_refl) as [u [Hu Hs]].
    vm_compute in Hu. injection Hu as <-. discriminate Hs.
Qed.

(** The variant accepts them too. *)
Lemma TestApi_non_http_url_is_scraped :
  map fst (responses (TestApi.log Whatwg.parse (Sample.calm Sample.plain_page)
                                  (Sample.request "file:///etc/passwd")))
  = [200].
Proof. reflexivity. Qed.

(** ** Responses *)

(** The shapes of the responses of a run: a 200 with [success: true], a
    400 with an [error] text and no [success] field, or a 500 with
    [success: false]; the error middleware and the 404 handler send
    [success: false] as well. *)
Theorem failure_responses_shape :
  forall (URL_new : jsstring -> option URL) (w : world) (req : Request)
         (status : nat) (body : json),
    In (status, body) (responses (log URL_new w req)) ->
    ((status = 200 /\ field "success" body = Some (JBool true))
     \/ (status = 400
         /\ field "success" body = None
         /\ exists text, field "error" body = Some (JString text))
     \/ (status = 500
         /\ field "success" body = Some (JBool false)
         /\ exists text, field "error" body = Some (JString text)))
    /\ field "success" (snd internal_server_error) = Some (JBool false)
    /\ field "success" (snd endpoint_not_found) = Some (JBool false).
Proof.
  intros URL_new w [url] status body Hin.
  split; [| split; reflexivity].
  revert Hin. unfold_handler.
  destruct url as [[| c url] |]; cbn.
  1, 3: intros [[= <- <-] | []]; right; left;
        repeat split; eexists; reflexivity.
  destruct (URL_new (c :: url)) as [u |]; cbn.
  - repeat next_outcome;
      intros Hin; cbn in Hin;
      repeat (destruct Hin as [[= <- <-] | Hin]);
      try contradiction;
      try (left; split; reflexivity);
      right; right; repeat split; eexists; reflexivity.
  - intros [[= <- <-] | []]; right; left;
      repeat split; eexists; reflexivity.
Qed.

Lemma failure_responses_shape_witness :
  (500 = 200 /\ field "success"
                  (scrape_failed (str "page.goto: Timeout 30000ms exceeded."))
                = Some (JBool true))
  \/ (500 = 400
      /\ field "success"
           (scrape_failed (str "page.goto: Timeout 30000ms exceeded.")) = None
      /\ exists text,
          field "error"
            (scrape_failed (str "page.goto: Timeout 30000ms exceeded."))
          = Some (JString text))
  \/ (500 = 500
      /\ field "success"
           (scrape_failed (str "page.goto: Timeout 30000ms exceeded."))
         = Some (JBool false)
      /\ exists text,
          field "error"
            (scrape_failed (str "page.goto: Timeout 30000ms exceeded."))
          = Some (JString text)).
Proof.
  apply (failure_responses_shape
           Whatwg.parse Sample.unreachable
           (Sample.request "https://example.com") 500
           (scrape_failed (str "page.goto: Timeout 30000ms exceeded."))).
  vm_compute. left. reflexivity.
Defined.

(** C3 on the code: every failure response should carry [success: false],
    as the 500 and 404 responses do; the 400 responses for a missing URL
    and for a malformed URL are JSON objects without a [success] field. *)
Theorem bad_request_responses_lack_success :
  responses (log Whatwg.parse (Sample.calm Sample.plain_page) Sample.no_url)
  = [ (400, url_required) ]
  /\ field "success" url_required = None
  /\ responses (log Whatwg.parse (Sample.calm Sample.plain_page)
                    (Sample.request "not-a-url"))
     = [ (400, invalid_url (str "not-a-url")) ]
  /\ field "success" (invalid_url (str "not-a-url")) = None
  /\ field "success" url_required <> Some (JBool false)
  /\ field "success" (invalid_url (str "not-a-url")) <> Some (JBool false).
Proof.
  repeat split; try reflexivity; discriminate.
Qed.

(** The 400 responses of the variant lack it too. *)
Lemma TestApi_bad_request_responses_lack_success :
  field "success" TestApi.url_required = None
  /\ field "success" TestApi.invalid_url = None.
Proof. split; reflexivity. Qed.

(** ** The content wait *)

(** C7: whether [page.waitForSelector] resolves or runs into its bound
    changes neither the responses of a run nor whether the page is
    evaluated; when the page loads and the wait times out, the run evaluates
    the page and answers 200 with the extracted data; when [page.goto]
    fails, the page is never evaluated and the answer is the 500 failure. *)
Theorem content_wait_timeout_is_soft :
  forall (URL_new : jsstring -> option URL) (w : world) (req : Request)
         (message : jsstring),
    let timed_out := with_waitForSelector (Throws message) w in
    let found := with_waitForSelector Resolves w in
    responses (log URL_new timed_out req) = responses (log URL_new found req)
    /\ times is_evaluate (log URL_new timed_out req)
       = times is_evaluate (log URL_new found req)
    /\ (forall url,
          valid_request URL_new req url -> page_loads w url ->
          times is_evaluate (log URL_new timed_out req) = 1
          /\ responses (log URL_new timed_out req)
             = [ (200, scrape_ok (extract (page_document w) (page_now w))) ])
    /\ (forall url failure,
          valid_request URL_new req url -> page_opens w ->
          goto_outcome w url = Throws failure ->
          close_outcome w 0 = Resolves ->
          times is_evaluate (log URL_new w req) = 0
          /\ responses (log URL_new w req) = [ (500, scrape_failed failure) ]).
Proof.
  intros URL_new w [url] message timed_out found.
  subst timed_out found.
  split; [| split; [| split]].
  - destruct url as [[| c url] |]; [reflexivity | | reflexivity].
    unfold_handler. destruct (URL_new (c :: url)); [| reflexivity].
    cbn. repeat next_outcome; reflexivity.
  - destruct url as [[| c url] |]; [reflexivity | | reflexivity].
    unfold_handler. destruct (URL_new (c :: url)); [| reflexivity].
    cbn. repeat next_outcome; reflexivity.
  - intros url' (Hurl & Hne & Hparse) ((Hl & Hc & Hp) & Hg & He & Hx & Hs).
    cbn in Hurl. subst url.
    destruct url' as [| c url]; [now elim Hne |].
    unfold_handler.
    destruct (URL_new (c :: url)); [| now elim Hparse].
    cbn. use_outcomes. split; reflexivity.
  - intros url' failure (Hurl & Hne & Hparse) (Hl & Hc & Hp) Hg Hx.
    cbn in Hurl. subst url.
    destruct url' as [| c url]; [now elim Hne |].
    unfold_handler.
    destruct (URL_new (c :: url)); [| now elim Hparse].
    cbn. use_outcomes. split; reflexivity.
Qed.

Lemma content_wait_timeout_is_soft_witness :
  responses (log Whatwg.parse (Sample.wait_times_out Sample.page)
                 (Sample.request "https://example.com"))
  = [ (200, scrape_ok (extract Sample.page (str "2024-01-01T00:00:00.000Z"))) ]
  /\ responses (log Whatwg.parse Sample.unreachable
                    (Sample.request "https://example.com"))
     = [ (500, scrape_failed (str "page.goto: Timeout 30000ms exceeded.")) ].
Proof.
  split.
  - destruct (content_wait_timeout_is_soft
                Whatwg.parse (Sample.calm Sample.page)
                (Sample.request "https://example.com")
                (str "page.waitForSelector: Timeout 15000ms exceeded."))
      as (_ & _ & H & _).
    apply (H (str "https://example.com")).
    + repeat split; [discriminate | vm_compute; discriminate].
    + repeat split.
  - destruct (content_wait_timeout_is_soft
                Whatwg.parse Sample.unreachable
                (Sample.request "https://example.com") [])
      as (_ & _ & _ & H).
    apply (H (str "https://example.com")
             (str "page.goto: Timeout 30000ms exceeded.")).
    + repeat split; [discriminate | vm_compute; discriminate].
    + repeat split.
    + reflexivity.
    + reflexivity.
Defined.

(** ** Zone and boss *)

(** C8: when the page loads, the run answers 200 with [success: true] and
    the extracted data, in which [zoneName] is the empty string if no
    element matches [a.zone-name] and the trimmed text of the first match
    otherwise, and [bossName] likewise for [#filter-boss-text]. *)
Theorem absent_zone_or_boss_gives_empty_string :
  forall (URL_new : jsstring -> option URL) (w : world) (req : Request)
         (url : jsstring),
    valid_request URL_new req url -> page_loads w url ->
    let document := page_document w in
    let data := extract document (page_now w) in
    responses (log URL_new w req) = [ (200, scrape_ok data) ]
    /\ field "success" (scrape_ok data) = Some (JBool true)
    /\ field "data" (scrape_ok data) = Some (json_of_data data)
    /\ field "zoneName" (json_of_data data) = Some (JString (zoneName data))
    /\ field "bossName" (json_of_data data) = Some (JString (bossName data))
    /\ (querySelectorAll sel_zone document = [] -> zoneName data = [])
    /\ (forall e rest,
          querySelectorAll sel_zone document = e :: rest ->
          zoneName data = trim (textContent e))
    /\ (querySelectorAll sel_boss document = [] -> bossName data = [])
    /\ (forall e rest,
          querySelectorAll sel_boss document = e :: rest ->
          bossName data = trim (textContent e)).
Proof.
  intros URL_new w [url'] url (Hurl & Hne & Hparse)
         ((Hl & Hc & Hp) & Hg & He & Hx & Hs) document data.
  cbn in Hurl. subst url'.
  split; [| repeat split].
  - destruct url as [| c url]; [now elim Hne |].
    unfold_handler.
    destruct (URL_new (c :: url)); [| now elim Hparse].
    cbn. use_outcomes.
    destruct (waitForSelector_outcome w); cbn; use_outcomes; reflexivity.
  - intros E. subst data. cbn. rewrite querySelector_first, E. reflexivity.
  - intros e rest E. subst data. cbn.
    rewrite querySelector_first, E. reflexivity.
  - intros E. subst data. cbn. rewrite querySelector_first, E. reflexivity.
  - intros e rest E. subst data. cbn.
    rewrite querySelector_first, E. reflexivity.
Qed.

Lemma absent_zone_or_boss_gives_empty_string_witness :
  responses (log Whatwg.parse (Sample.calm Sample.plain_page)
                 (Sample.request "https://example.com"))
  = [ (200, scrape_ok {| zoneName := []; bossName := []; tableRows := [];
                         timestamp := str "2024-01-01T00:00:00.000Z" |}) ].
Proof.
  apply (absent_zone_or_boss_gives_empty_string
           Whatwg.parse (Sample.calm Sample.plain_page)
           (Sample.request "https://example.com") (str "https://example.com")).
  - repeat split; [discriminate | vm_compute; discriminate].
  - repeat split.
Defined.

(** ** Determinism *)

(** C9: on one document, two runs of the extraction function agree on
    [zoneName], [bossName] and [tableRows] whatever their clocks show, and
    so do two evaluations in worlds that hold the same document. *)
Theorem extraction_deterministic_up_to_timestamp :
  forall (document : Document) (now1 now2 : jsstring),
    (zoneName (extract document now1) = zoneName (extract document now2)
     /\ bossName (extract document now1) = bossName (extract document now2)
     /\ tableRows (extract document now1) = tableRows (extract document now2))
    /\ forall (w1 w2 : world) (st1 st2 : state) (d1 d2 : ScrapedData),
        page_document w1 = document ->
        page_document w2 = document ->
        fst (evaluate w1 st1) = Returned d1 ->
        fst (evaluate w2 st2) = Returned d2 ->
        zoneName d1 = zoneName d2
        /\ bossName d1 = bossName d2
        /\ tableRows d1 = tableRows d2.
Proof.
  intros document now1 now2. split; [repeat split |].
  intros w1 w2 st1 st2 d1 d2 D1 D2.
  unfold evaluate, bind, perform, ret. cbn.
  destruct (evaluate_outcome w1); [| discriminate].
  destruct (evaluate_outcome w2); [| discriminate].
  cbn. intros [= <-] [= <-]. rewrite D1, D2. repeat split.
Qed.

Lemma extraction_deterministic_up_to_timestamp_witness :
  tableRows (extract Sample.page (str "2024-01-01T00:00:00.000Z"))
  = tableRows (extract Sample.page (str "2025-06-30T12:00:00.000Z")).
Proof.
  destruct (extraction_deterministic_up_to_timestamp
              Sample.page (str "2024-01-01T00:00:00.000Z")
              (str "2025-06-30T12:00:00.000Z")) as [_ H].
  apply (H (Sample.calm Sample.page) (Sample.later Sample.page)
           initial initial); reflexivity.
Defined.

(** ** Release of the browser *)

(** Without a browser there is nothing to close. *)
Lemma no_close_without_launch :
  forall (URL_new : jsstring -> option URL) (w : world) (req : Request)
         (failure : jsstring),
    launch_outcome w = Throws failure ->
    times is_close (log URL_new w req) = 0.
Proof.
  intros URL_new w [url] failure Hl.
  destruct url as [[| c url] |]; [reflexivity | | reflexivity].
  unfold_handler. destruct (URL_new (c :: url)); [| reflexivity].
  cbn. use_outcomes. repeat next_outcome; reflexivity.
Qed.

(** Once the browser is launched, [browser.close] is invoked once on every
    path on which the fault, if any, comes before the release: at
    [newContext], [newPage], [goto] or [evaluate], with the content wait
    ending either way. It is invoked a second time exactly when the run got
    as far as the release and the first [close], or the writing of the 200
    response after it, throws. *)
Lemma close_once_unless_release_or_send_fails :
  forall (URL_new : jsstring -> option URL) (w : world) (req : Request)
         (url : jsstring),
    valid_request URL_new req url ->
    launch_outcome w = Resolves ->
    let n := times is_close (log URL_new w req) in
    (release_and_send_resolve w -> n = 1)
    /\ (n = 1
        \/ (n = 2
            /\ newContext_outcome w = Resolves
            /\ newPage_outcome w = Resolves
            /\ goto_outcome w url = Resolves
            /\ evaluate_outcome w = Resolves
            /\ (close_outcome w 0 <> Resolves
                \/ send_outcome w 0 <> Resolves))).
Proof.
  intros URL_new w [url'] url (Hurl & Hne & Hparse) Hl n. subst n.
  cbn in Hurl. subst url'.
  destruct url as [| c url]; [now elim Hne |].
  unfold_handler.
  destruct (URL_new (c :: url)); [| now elim Hparse].
  cbn. use_outcomes. split.
  - intros [Hx Hs]. repeat next_outcome; try reflexivity; discriminate.
  - repeat next_outcome; try (left; reflexivity);
      right; repeat split; try reflexivity;
      solve [left; discriminate | right; discriminate].
Qed.

(** The variant releases the browser in the same way. *)
Lemma TestApi_close_once_when_release_and_send_resolve :
  forall (URL_new : jsstring -> option URL) (w : world) (req : Request)
         (url : jsstring),
    valid_request URL_new req url ->
    launch_outcome w = Resolves ->
    release_and_send_resolve w ->
    times is_close (TestApi.log URL_new w req) = 1.
Proof.
  intros URL_new w [url'] url (Hurl & Hne & Hparse) Hl [Hx Hs].
  cbn in Hurl. subst url'.
  destruct url as [| c url]; [now elim Hne |].
  unfold_handler.
  destruct (URL_new (c :: url)); [| now elim Hparse].
  cbn. use_outcomes.
  repeat next_outcome; try reflexivity; discriminate.
Qed.

(** C2 fails on the code: with every Playwright call resolving except the
    first [browser.close()], or with only the writing of the 200 response
    throwing, one launch is followed by two invocations of
    [browser.close], in the server and in its variant. *)
Theorem close_invoked_twice_when_release_or_send_fails :
  let req := Sample.request "https://example.com" in
  times is_launch (log Whatwg.parse Sample.close_rejects req) = 1
  /\ times is_close (log Whatwg.parse Sample.close_rejects req) = 2
  /\ times is_launch (log Whatwg.parse Sample.send_throws req) = 1
  /\ times is_close (log Whatwg.parse Sample.send_throws req) = 2
  /\ times is_close (TestApi.log Whatwg.parse Sample.close_rejects req) = 2
  /\ times is_close (TestApi.log Whatwg.parse Sample.send_throws req) = 2.
Proof. repeat split. Qed.

(** * Further properties *)

(** ** Trimmed text *)

Lemma trimStart_head (s : jsstring) :
  forall c rest, trimStart s = c :: rest -> is_js_space c = false.
Proof.
  induction s as [| a s IH]; intros c rest; cbn [trimStart].
  - discriminate.
  - destruct (is_js_space a) eqn:E; [apply IH |].
    intros [= <- <-]. exact E.
Qed.

Lemma trimStart_keeps (c : N) (rest : jsstring) :
  is_js_space c = false -> trimStart (c :: rest) = c :: rest.
Proof. intros E. cbn [trimStart]. now rewrite E. Qed.

(** A character that is not white space stops [trimStart]. *)
Lemma trimStart_app (l : jsstring) (c : N) (r : jsstring) :
  is_js_space c = false ->
  trimStart (l ++ c :: r) = trimStart l ++ c :: r.
Proof.
  intros E. induction l as [| a l IH]; cbn [trimStart app].
  - now rewrite E.
  - destruct (is_js_space a); [exact IH | reflexivity].
Qed.

Lemma trimEnd_last (s : jsstring) :
  forall front c, trimEnd s = front ++ [c] -> is_js_space c = false.
Proof.
  unfold trimEnd. intros front c H.
  apply (f_equal (@rev N)) in H.
  rewrite rev_involutive, rev_app_distr in H. cbn in H.
  exact (trimStart_head _ _ _ H).
Qed.

Lemma trimEnd_cons (c : N) (rest : jsstring) :
  is_js_space c = false -> trimEnd (c :: rest) = c :: trimEnd rest.
Proof.
  intros E. unfold trimEnd. cbn [rev].
  rewrite (trimStart_app (rev rest) c [] E), rev_app_distr. reflexivity.
Qed.

Lemma trimEnd_keeps (front : jsstring) (c : N) :
  is_js_space c = false -> trimEnd (front ++ [c]) = front ++ [c].
Proof.
  intros E. unfold trimEnd. rewrite rev_app_distr. cbn [rev app].
  rewrite (trimStart_keeps c (rev front) E).
  cbn [rev]. now rewrite rev_involutive.
Qed.

Lemma trim_trimmed (s : jsstring) : trimmed (trim s).
Proof.
  assert (Hhead : forall c rest, trim s = c :: rest -> is_js_space c = false).
  { unfold trim. intros c rest H.
    destruct (trimStart s) as [| a t] eqn:Es.
    - discriminate H.
    - pose proof (trimStart_head s a t Es) as Ea.
      rewrite (trimEnd_cons a t Ea) in H. injection H as <- _. exact Ea. }
  assert (Hlast : forall front c,
             trim s = front ++ [c] -> is_js_space c = false).
  { unfold trim. intros front c H. exact (trimEnd_last _ _ _ H). }
  repeat split; [exact Hhead | exact Hlast |].
  destruct (trim s) as [| a t] eqn:Et; [reflexivity |].
  unfold trim at 1. rewrite (trimStart_keeps a t (Hhead a t eq_refl)).
  destruct (exists_last (l := a :: t)) as (front & c & Efc); [discriminate |].
  rewrite Efc. apply trimEnd_keeps. apply (Hlast front c). exact Efc.
Qed.

Lemma empty_trimmed : trimmed [].
Proof.
  repeat split.
  - discriminate.
  - intros [| a front] c H; discriminate H.
Qed.

Lemma text_or_empty_trimmed (el : option node) : trimmed (text_or_empty el).
Proof. destruct el; [apply trim_trimmed | apply empty_trimmed]. Qed.

(** X1: every text the extraction function returns is trimmed: [zoneName],
    [bossName] and the [jobName], [score] and [count] of every row neither
    begin nor end with white space, and trimming them again changes
    nothing. *)
Theorem extracted_text_is_trimmed :
  forall (document : Document) (now : jsstring),
    let data := extract document now in
    trimmed (zoneName data)
    /\ trimmed (bossName data)
    /\ forall r, In r (tableRows data) -> row_trimmed r.
Proof.
  intros document now data. subst data. cbn.
  split; [apply text_or_empty_trimmed |].
  split; [apply text_or_empty_trimmed |].
  intros r Hin. unfold extract_tableRows in Hin.
  rewrite map_filter_rows_filter in Hin.
  apply in_map_iff in Hin. destruct Hin as (row & <- & _).
  unfold row_trimmed, object_of. cbn.
  repeat apply conj; apply text_or_empty_trimmed.
Qed.

Lemma extracted_text_is_trimmed_witness :
  row_trimmed {| jobName := str "Paladin"; score := str "98.10";
                 count := str "1234" |}.
Proof.
  destruct (extracted_text_is_trimmed Sample.page []) as (_ & _ & H).
  apply H. vm_compute. left. reflexivity.
Defined.

(** ** How many rows *)

Lemma filter_all_length {A} (f : A -> bool) (l : list A) :
  List.length (filter f l) = List.length l
  <-> forall x, In x l -> f x = true.
Proof.
  induction l as [| a l IH]; cbn.
  - split; [intros _ x [] | reflexivity].
  - pose proof (filter_length_le f l) as Hle.
    destruct (f a) eqn:E; cbn.
    + split.
      * intros H x [<- | Hx]; [exact E |].
        apply IH; [lia | exact Hx].
      * intros H. f_equal. apply IH. intros x Hx. apply H. now right.
    + split; [lia |].
      intros H. rewrite (H a (or_introl eq_refl)) in E. discriminate.
Qed.

(** X2: [tableRows] has as many entries as there are matched rows with at
    least four cells, never more than there are matched rows, and as many
    as matched rows exactly when every matched row has four cells. *)
Theorem tableRows_length :
  forall (document : Document),
    let rows := querySelectorAll sel_rows document in
    List.length (extract_tableRows document) = List.length (filter keeps rows)
    /\ List.length (extract_tableRows document) <= List.length rows
    /\ (List.length (extract_tableRows document) = List.length rows
        <-> forall row, In row rows -> 4 <= List.length (cells_of row)).
Proof.
  intros document rows.
  assert (E : List.length (extract_tableRows document)
              = List.length (filter keeps rows)).
  { unfold extract_tableRows. fold rows.
    now rewrite map_filter_rows_filter, length_map. }
  rewrite E. split; [reflexivity |]. split; [apply filter_length_le |].
  rewrite filter_all_length. split; intros H row Hin.
  - apply keeps_spec, H, Hin.
  - apply keeps_spec, H, Hin.
Qed.

(** ** Rows inside rows *)

Lemma subtree_children (n : node) :
  subtree n = n :: flat_map subtree (children n).
Proof. destruct n; reflexivity. Qed.

Lemma flat_map_subtree_split (l : list node) (c : node) :
  In c l ->
  exists front back, flat_map subtree l = front ++ subtree c ++ back.
Proof.
  intros H. apply in_split in H. destruct H as (l1 & l2 & ->).
  exists (flat_map subtree l1), (flat_map subtree l2).
  now rewrite flat_map_app.
Qed.

(** The subtree of a descendant is a block of the subtree of its
    ancestor. *)
Lemma subtree_infix :
  forall n x, In x (subtree n) ->
    exists front back, subtree n = front ++ subtree x ++ back.
Proof.
  induction n as [d | d | tag i cls ch IH] using node_ind_all; intros x Hin.
  - destruct Hin as [<- | []]. now exists [], [].
  - destruct Hin as [<- | []]. now exists [], [].
  - cbn [subtree] in Hin. destruct Hin as [<- | Hin].
    + exists [], []. now rewrite app_nil_r.
    + apply in_flat_map in Hin. destruct Hin as (c & Hc & Hx).
      rewrite Forall_forall in IH.
      destruct (IH c Hc x Hx) as (p & q & Ec).
      destruct (flat_map_subtree_split ch c Hc) as (A & B & Ech).
      exists (Element tag i cls ch :: A ++ p), (q ++ B).
      cbn [subtree]. rewrite Ech, Ec.
      cbn [app]. f_equal. now rewrite <- !app_assoc.
Qed.

Lemma descendants_infix (scope : list node) (x : node) :
  In x (flat_map subtree scope) ->
  exists front back,
    flat_map subtree scope = front ++ x :: flat_map subtree (children x) ++ back.
Proof.
  intros Hin. apply in_flat_map in Hin. destruct Hin as (c & Hc & Hx).
  destruct (subtree_infix c x Hx) as (p & q & Ec).
  destruct (flat_map_subtree_split scope c Hc) as (A & B & Es).
  exists (A ++ p), (q ++ B).
  rewrite Es, Ec, (subtree_children x).
  repeat (rewrite <- app_assoc; cbn [app]). reflexivity.
Qed.

(** X3: the cells of a row are all its [td] descendants, those of tables
    nested in it included: the cells of a row below another row form a block
    of the cells of the outer row, so the outer row has at least as many
    cells and is kept whenever the inner row is. *)
Theorem nested_row_cells_count_for_outer_row :
  forall (row inner : node),
    In inner (flat_map subtree (children row)) ->
    (exists front back, cells_of row = front ++ cells_of inner ++ back)
    /\ List.length (cells_of inner) <= List.length (cells_of row)
    /\ (keeps inner = true -> keeps row = true).
Proof.
  intros row inner Hin.
  assert (B : exists front back,
             cells_of row = front ++ cells_of inner ++ back).
  { destruct (descendants_infix _ _ Hin) as (p & q & E).
    unfold cells_of, querySelectorAll. rewrite E.
    exists (filter (matches sel_td) (p ++ [inner])),
           (filter (matches sel_td) q).
    replace (p ++ inner :: flat_map subtree (children inner) ++ q)
      with ((p ++ [inner]) ++ flat_map subtree (children inner) ++ q)
      by (now rewrite <- app_assoc).
    now rewrite !filter_app. }
  assert (L : List.length (cells_of inner) <= List.length (cells_of row)).
  { destruct B as (front & back & ->). rewrite !length_app. lia. }
  split; [exact B |]. split; [exact L |].
  rewrite !keeps_spec. lia.
Qed.

Lemma nested_row_cells_count_for_outer_row_witness :
  keeps Nested.outer_row = true
  /\ extract_tableRows Nested.page
     = [ {| jobName := str "Details"; score := str "Monk97.00x88";
            count := str "97.00" |};
         {| jobName := str "Monk"; score := str "97.00"; count := str "88" |} ].
Proof.
  split; [| reflexivity].
  apply (nested_row_cells_count_for_outer_row
           Nested.outer_row Nested.inner_row).
  - vm_compute. tauto.
  - reflexivity.
Defined.

(** ** The order of the calls of a run *)

Lemma preceded_by_spec (p q : call -> bool) (cs : list call) :
  forall seen,
    preceded_by p q seen cs = true ->
    forall front c back,
      cs = front ++ c :: back -> q c = true ->
      seen = true \/ existsb p front = true.
Proof.
  induction cs as [| a cs IH]; intros seen H front c back E Hq.
  - destruct front; discriminate E.
  - cbn [preceded_by] in H. apply andb_prop in H. destruct H as [Ha Hrest].
    destruct front as [| b front]; cbn [app] in E; injection E as -> ->.
    + rewrite Hq in Ha. cbn in Ha. now left.
    + destruct (IH _ Hrest front c back eq_refl Hq) as [Hs | Hf].
      * apply orb_prop in Hs. destruct Hs as [-> | Hb]; [now left |].
        right. cbn [existsb]. now rewrite Hb.
      * right. cbn [existsb]. rewrite Hf. apply orb_true_r.
Qed.

Lemma preceded_by_before (p q : call -> bool) (cs : list call) :
  preceded_by p q false cs = true ->
  forall front c back,
    cs = front ++ c :: back -> q c = true -> existsb p front = true.
Proof.
  intros H front c back E Hq.
  destruct (preceded_by_spec p q cs false H front c back E Hq) as [F | F];
    [discriminate F | exact F].
Qed.

Ltac request_cases URL_new req :=
  let c := fresh "c" in
  let url := fresh "url" in
  destruct req as [[[| c url] |]];
  unfold_handler;
  try (destruct (URL_new (c :: url)); cbn).

Lemma runs_in_order :
  forall (URL_new : jsstring -> option URL) (w : world) (req : Request),
    in_order (log URL_new w req) = true.
Proof.
  intros URL_new w req. unfold in_order.
  request_cases URL_new req; repeat next_outcome; reflexivity.
Qed.

(** X4: a run never repeats a stage and never skips one: [chromium.launch],
    [page.goto] and [page.evaluate] are each invoked at most once, the page
    is only navigated after a launch, only evaluated after a navigation, and
    the success response is only written after an evaluation. *)
Theorem stages_once_and_in_order :
  forall (URL_new : jsstring -> option URL) (w : world) (req : Request),
    let l := log URL_new w req in
    times is_launch l <= 1
    /\ times is_goto l <= 1
    /\ times is_evaluate l <= 1
    /\ forall front c back,
        l = front ++ c :: back ->
        (is_goto c = true -> existsb is_launch front = true)
        /\ (is_evaluate c = true -> existsb is_goto front = true)
        /\ (is_send_200 c = true -> existsb is_evaluate front = true).
Proof.
  intros URL_new w req l. subst l.
  pose proof (runs_in_order URL_new w req) as H. unfold in_order in H.
  repeat (apply andb_prop in H; destruct H as [H ?]).
  repeat split; try (apply Nat.leb_le; assumption);
    intros Hq; eapply preceded_by_before; eassumption.
Qed.

Lemma stages_once_and_in_order_witness :
  existsb is_evaluate
    [ chromium_launch; browser_newContext; context_newPage;
      page_setDefaultTimeout 30000%N; page_goto (str "https://example.com");
      page_waitForSelector 15000%N; page_evaluate; browser_close ] = true.
Proof.
  destruct (stages_once_and_in_order
              Whatwg.parse (Sample.calm Sample.plain_page)
              (Sample.request "https://example.com")) as (_ & _ & _ & H).
  refine (proj2 (proj2 (H _ (res_send 200 _) [] _)) _).
  - vm_compute. reflexivity.
  - reflexivity.
Defined.

(** X5: once the browser is launched, no response is written before
    [browser.close] has been invoked: the release comes before the success
    response and before the failure response alike. *)
Theorem release_precedes_every_response :
  forall (URL_new : jsstring -> option URL) (w : world) (req : Request)
         (url : jsstring),
    valid_request URL_new req url ->
    launch_outcome w = Resolves ->
    forall front c back,
      log URL_new w req = front ++ c :: back ->
      is_send c = true ->
      existsb is_close front = true.
Proof.
  intros URL_new w [url'] url (Hurl & Hne & Hparse) Hl.
  cbn in Hurl. subst url'.
  apply preceded_by_before.
  destruct url as [| c url]; [now elim Hne |].
  unfold_handler.
  destruct (URL_new (c :: url)); [| now elim Hparse].
  cbn. use_outcomes. repeat next_outcome; reflexivity.
Qed.

Lemma release_precedes_every_response_witness :
  existsb is_close
    [ chromium_launch; browser_newContext; context_newPage;
      page_setDefaultTimeout 30000%N; page_goto (str "https://example.com");
      console_error (str "page.goto: Timeout 30000ms exceeded.");
      browser_close ] = true.
Proof.
  refine (release_precedes_every_response
            Whatwg.parse Sample.unreachable
            (Sample.request "https://example.com") (str "https://example.com")
            _ _ _ (res_send 500 _) [] _ _).
  - repeat split; [discriminate | vm_compute; discriminate].
  - reflexivity.
  - vm_compute. reflexivity.
  - reflexivity.
Defined.

(** ** Faults *)

(** X6: when [chromium.launch] fails, the run consists of the launch, the
    error log and the 500 response carrying the launch error's message;
    nothing is opened, navigated or closed. *)
Theorem launch_failure_gives_500_without_close :
  forall (URL_new : jsstring -> option URL) (w : world) (req : Request)
         (url failure : jsstring),
    valid_request URL_new req url ->
    launch_outcome w = Throws failure ->
    log URL_new w req
    = [ chromium_launch; console_error failure;
        res_send 500 (scrape_failed failure) ]
    /\ field "message" (scrape_failed failure) = Some (JString failure).
Proof.
  intros URL_new w [url'] url failure (Hurl & Hne & Hparse) Hl.
  cbn in Hurl. subst url'.
  split; [| reflexivity].
  destruct url as [| c url]; [now elim Hne |].
  unfold_handler.
  destruct (URL_new (c :: url)); [| now elim Hparse].
  cbn. use_outcomes. reflexivity.
Qed.

Lemma launch_failure_gives_500_without_close_witness :
  log Whatwg.parse Faults.no_browser (Sample.request "https://example.com")
  = [ chromium_launch;
      console_error (str "browserType.launch: Executable missing");
      res_send 500
        (scrape_failed (str "browserType.launch: Executable missing")) ].
Proof.
  apply (launch_failure_gives_500_without_close
           Whatwg.parse Faults.no_browser
           (Sample.request "https://example.com") (str "https://example.com")).
  - repeat split; [discriminate | vm_compute; discriminate].
  - reflexivity.
Defined.

(** X7: when a call between the launch and the release fails,
    [browser.close] is invoked once, with the content wait ending either
    way. If that close resolves, the one response is the 500 failure with
    the message of the call that failed; if it throws, no response is
    written at all and the handler's promise rejects with the error of the
    close. *)
Theorem fault_before_release_gives_500_or_no_response :
  forall (URL_new : jsstring -> option URL) (w : world) (req : Request)
         (url failure : jsstring),
    valid_request URL_new req url ->
    launch_outcome w = Resolves ->
    fault_before_release w url failure ->
    times is_close (log URL_new w req) = 1
    /\ (close_outcome w 0 = Resolves ->
        responses (log URL_new w req) = [ (500, scrape_failed failure) ])
    /\ (forall close_error,
          close_outcome w 0 = Throws close_error ->
          responses (log URL_new w req) = []
          /\ fst (run URL_new w req) = Thrown close_error).
Proof.
  intros URL_new w [url'] url failure (Hurl & Hne & Hparse) Hl Hfault.
  cbn in Hurl. subst url'.
  destruct url as [| c url]; [now elim Hne |].
  unfold_handler.
  destruct (URL_new (c :: url)); [| now elim Hparse].
  cbn.
  destruct Hfault as [Hc | [(Hc & Hp) | [(Hc & Hp & Hg) | (Hc & Hp & Hg & He)]]];
    use_outcomes;
    repeat next_outcome;
    (split; [reflexivity |]);
    (split; [intros Hx | intros close_error Hx]);
    try discriminate Hx; try reflexivity;
    injection Hx as <-; split; reflexivity.
Qed.

Lemma fault_before_release_gives_500_or_no_response_witness :
  responses (log Whatwg.parse Sample.unreachable
                 (Sample.request "https://example.com"))
  = [ (500, scrape_failed (str "page.goto: Timeout 30000ms exceeded.")) ]
  /\ responses (log Whatwg.parse Faults.navigation_and_close_fail
                    (Sample.request "https://example.com")) = []
  /\ fst (run Whatwg.parse Faults.navigation_and_close_fail
              (Sample.request "https://example.com"))
     = Thrown (str "browser.close: Connection closed").
Proof.
  split.
  - apply (fault_before_release_gives_500_or_no_response
             Whatwg.parse Sample.unreachable
             (Sample.request "https://example.com")
             (str "https://example.com")
             (str "page.goto: Timeout 30000ms exceeded.")).
    + repeat split; [discriminate | vm_compute; discriminate].
    + reflexivity.
    + right. right. left. repeat split.
    + reflexivity.
  - apply (fault_before_release_gives_500_or_no_response
             Whatwg.parse Faults.navigation_and_close_fail
             (Sample.request "https://example.com")
             (str "https://example.com")
             (str "net::ERR_NAME_NOT_RESOLVED")).
    + repeat split; [discriminate | vm_compute; discriminate].
    + reflexivity.
    + right. right. left. repeat split.
    + reflexivity.
Defined.

(** X8: when the first [browser.close] and the first write of a response
    resolve, every request, valid or not, gets exactly one response, with
    status 200, 400 or 500, and the handler's promise resolves. *)
Theorem one_response_per_request :
  forall (URL_new : jsstring -> option URL) (w : world) (req : Request),
    close_outcome w 0 = Resolves ->
    send_outcome w 0 = Resolves ->
    fst (run URL_new w req) = Returned tt
    /\ exists status body,
        responses (log URL_new w req) = [ (status, body) ]
        /\ (status = 200 \/ status = 400 \/ status = 500).
Proof.
  intros URL_new w req Hx Hs.
  request_cases URL_new req; use_outcomes;
    repeat (next_outcome; use_outcomes);
    (split; [reflexivity |]); do 2 eexists;
    (split; [reflexivity | tauto]).
Qed.

Lemma one_response_per_request_witness :
  exists status body,
    responses (log Whatwg.parse Faults.no_browser Sample.no_url)
    = [ (status, body) ]
    /\ (status = 200 \/ status = 400 \/ status = 500).
Proof.
  apply (one_response_per_request Whatwg.parse Faults.no_browser Sample.no_url);
    reflexivity.
Defined.

(** ** The variant against the server *)






(** X10: in the variant the fixed pause lies outside the inner [try]: when
    [page.waitForTimeout] throws after the page has loaded, the variant
    never evaluates the page and answers 500 with that error, where the
    server, which has no such pause, answers 200 with the data. *)
Theorem variant_pause_failure_is_hard :
  forall (URL_new : jsstring -> option URL) (w : world) (req : Request)
         (url failure : jsstring),
    valid_request URL_new req url ->
    page_loads w url ->
    waitForTimeout_outcome w = Throws failure ->
    times is_evaluate (TestApi.log URL_new w req) = 0
    /\ times is_close (TestApi.log URL_new w req) = 1
    /\ responses (TestApi.log URL_new w req) = [ (500, scrape_failed failure) ]
    /\ responses (log URL_new w req)
       = [ (200, scrape_ok (extract (page_document w) (page_now w))) ].
Proof.
  intros URL_new w [url'] url failure (Hurl & Hne & Hparse)
         ((Hl & Hc & Hp) & Hg & He & Hx & Hs) Hpause.
  cbn in Hurl. subst url'.
  destruct url as [| c url]; [now elim Hne |].
  unfold_handler.
  destruct (URL_new (c :: url)); [| now elim Hparse].
  cbn. use_outcomes.
  repeat split.
  destruct (waitForSelector_outcome w); cbn; use_outcomes; reflexivity.
Qed.

Lemma variant_pause_failure_is_hard_witness :
  responses (TestApi.log Whatwg.parse Faults.pause_fails
                         (Sample.request "https://example.com"))
  = [ (500, scrape_failed (str "page.waitForTimeout: Target closed")) ].
Proof.
  apply (variant_pause_failure_is_hard
           Whatwg.parse Faults.pause_fails
           (Sample.request "https://example.com") (str "https://example.com")
           (str "page.waitForTimeout: Target closed")).
  - repeat split; [discriminate | vm_compute; discriminate].
  - repeat split.
  - reflexivity.
Defined.

(** ** [GET /scrape] *)

(** X11: [GET /scrape] of the variant never scrapes: its one call is a
    response without a [success] field, the 400 usage error when the [url]
    parameter is absent or empty and the 200 hint to use POST otherwise. The
    [url] is not validated: one that [POST /scrape] rejects with 400 still
    gets the 200 hint here. *)
Theorem get_scrape_never_scrapes :
  forall (URL_new : jsstring -> option URL) (w : world)
         (query_url : option jsstring),
    let l := calls (snd (get_scrape w query_url initial)) in
    times is_launch l = 0
    /\ field "success" get_scrape_url_required = None
    /\ field "success" get_scrape_use_post = None
    /\ (query_url = None \/ query_url = Some [] ->
        l = [ res_send 400 get_scrape_url_required ])
    /\ forall c rest,
        query_url = Some (c :: rest) ->
        l = [ res_send 200 get_scrape_use_post ]
        /\ (URL_new (c :: rest) = None ->
            map fst (responses
                       (TestApi.log URL_new w {| body_url := query_url |}))
            = [400]).
Proof.
  intros URL_new w query_url l. subst l.
  unfold get_scrape, res_json, perform, record.
  repeat split.
  - destruct query_url as [[| c rest] |]; reflexivity.
  - intros [-> | ->]; reflexivity.
  - subst query_url. reflexivity.
  - subst query_url. intros Hparse. unfold_handler. now rewrite Hparse.
Qed.

Lemma get_scrape_never_scrapes_witness :
  calls (snd (get_scrape (Sample.calm Sample.plain_page)
                         (Some (str "not-a-url")) initial))
  = [ res_send 200 get_scrape_use_post ]
  /\ map fst (responses
                (TestApi.log Whatwg.parse (Sample.calm Sample.plain_page)
                             (Sample.request "not-a-url"))) = [400].
Proof.
  destruct (get_scrape_never_scrapes
              Whatwg.parse (Sample.calm Sample.plain_page)
              (Some (str "not-a-url"))) as (_ & _ & _ & _ & H).
  destruct (H 110%N (str "ot-a-url") eq_refl) as [H200 H400].
  split; [exact H200 | apply H400; vm_compute; reflexivity].
Defined.

(** ** A failing write of the success response *)

(** X12: when everything up to the release goes through and writing the 200
    response throws, the [catch] block runs after the success response was
    attempted: [browser.close] is invoked again and, if it resolves, a
    second response, the 500 failure with the error of the write, is
    written for the same request. *)
Theorem failed_send_is_answered_a_second_time :
  forall (URL_new : jsstring -> option URL) (w : world) (req : Request)
         (url failure : jsstring),
    valid_request URL_new req url ->
    page_opens w ->
    goto_outcome w url = Resolves ->
    evaluate_outcome w = Resolves ->
    close_outcome w 0 = Resolves ->
    send_outcome w 0 = Throws failure ->
    close_outcome w 1 = Resolves ->
    responses (log URL_new w req)
    = [ (200, scrape_ok (extract (page_document w) (page_now w)));
        (500, scrape_failed failure) ]
    /\ times is_close (log URL_new w req) = 2.
Proof.
  intros URL_new w [url'] url failure (Hurl & Hne & Hparse)
         (Hl & Hc & Hp) Hg He Hx Hs Hx1.
  cbn in Hurl. subst url'.
  destruct url as [| c url]; [now elim Hne |].
  unfold_handler.
  destruct (URL_new (c :: url)); [| now elim Hparse].
  cbn. use_outcomes.
  destruct (waitForSelector_outcome w); cbn; use_outcomes;
    split; reflexivity.
Qed.

Lemma failed_send_is_answered_a_second_time_witness :
  map fst (responses (log Whatwg.parse Sample.send_throws
                          (Sample.request "https://example.com")))
  = [200; 500].
Proof.
  refine (f_equal (map fst)
            (proj1 (failed_send_is_answered_a_second_time
                      Whatwg.parse Sample.send_throws
                      (Sample.request "https://example.com")
                      (str "https://example.com") (str "write after end")
                      _ _ _ _ _ _ _)));
    try reflexivity.
  - repeat split; [discriminate | vm_compute; discriminate].
  - repeat split.
Defined.

(** ** Where the rows come from *)




